(** * buddymon: the buddyinfo parsing and batching pipeline

    A shallow embedding of [buddymon.go] (the looping revision, whose
    [processBuddyInfo] and [updateInflux] return errors) together with the
    properties of its line parser, point encoder, batch assembly and
    dispatch loop.

    Go strings are byte sequences; they are modelled by [string], whose
    characters are the 256 values of [ascii].  Go maps are reference
    values: the tag map of the settings lives in an explicit heap. *)

From Stdlib Require Import ZArith Ascii String DecimalString.
From stdpp Require Import gmap strings list fin_maps.

Local Open Scope string_scope.
Local Open Scope Z_scope.

(** ** Go runtime and standard library, as far as the program uses them *)

Module Go.

(** What a call can do: return a value, return an error value (the text
    of [err.Error()]), stop with a run-time panic, or end the process
    through [os.Exit]. *)
Inductive result (A : Type) : Type :=
| Ok (a : A)
| Err (e : string)
| Panic (msg : string)
| Exit (code : Z).
Arguments Ok {A} a.
Arguments Err {A} e.
Arguments Panic {A} msg.
Arguments Exit {A} code.

#[export] Instance result_ret : MRet result := @Ok.
#[export] Instance result_bind : MBind result := λ A B k r,
  match r with
  | Ok a => k a
  | Err e => Err e
  | Panic m => Panic m
  | Exit c => Exit c
  end.

Definition byte_val (c : ascii) : Z := Z.of_N (N_of_ascii c).
Definition byte_of (z : Z) : ascii := ascii_of_N (Z.to_N z).

(** [int] is 64 bits wide; arithmetic wraps around. *)
Definition wrap_int (z : Z) : Z := (z + 2 ^ 63) mod 2 ^ 64 - 2 ^ 63.

(** The verb [%d] of package fmt. *)
Definition fmt_d (z : Z) : string := NilZero.string_of_int (Z.to_int z).

(** [s[i]] on a slice of strings and [s[0]] on a string: both are
    bounds-checked at run time. *)
Definition index {A} (l : list A) (i : nat) : result A :=
  match l !! i with
  | Some x => Ok x
  | None => Panic "index out of range"
  end.

Definition byte0 (s : string) : result ascii :=
  match s with
  | String c _ => Ok c
  | EmptyString => Panic "index out of range"
  end.

(** [s[i:]] panics when [i] exceeds the length. *)
Definition slice_from {A} (l : list A) (i : nat) : result (list A) :=
  if decide (i <= length l)%nat then Ok (drop i l)
  else Panic "slice bounds out of range".

(** [string(b)] for a byte [b] is the UTF-8 encoding of the code point
    [b]: one byte below 0x80, two bytes from there on. *)
Definition string_of_byte (c : ascii) : string :=
  let v := byte_val c in
  if v <? 0x80 then String c EmptyString
  else String (byte_of (Z.lor 0xC0 (Z.shiftr v 6)))
         (String (byte_of (Z.lor 0x80 (Z.land v 0x3F))) EmptyString).

(** *** UTF-8 decoding, as [utf8.DecodeRuneInString] and [range] do it *)

Definition RuneError : Z := 0xFFFD.

(** The table [first] of package utf8: for a leading byte, the length of
    the sequence and the accepted range of the second byte; [None] for a
    byte that cannot start a multi-byte sequence. *)
Definition first (s0 : Z) : option (nat * Z * Z) :=
  if s0 <? 0xC2 then None
  else if s0 <? 0xE0 then Some (2%nat, 0x80, 0xBF)
  else if s0 =? 0xE0 then Some (3%nat, 0xA0, 0xBF)
  else if s0 <? 0xED then Some (3%nat, 0x80, 0xBF)
  else if s0 =? 0xED then Some (3%nat, 0x80, 0x9F)
  else if s0 <? 0xF0 then Some (3%nat, 0x80, 0xBF)
  else if s0 =? 0xF0 then Some (4%nat, 0x90, 0xBF)
  else if s0 <? 0xF4 then Some (4%nat, 0x80, 0xBF)
  else if s0 =? 0xF4 then Some (4%nat, 0x80, 0x8F)
  else None.

Definition byte_at (s : string) (i : nat) : Z :=
  match String.get i s with
  | Some c => byte_val c
  | None => 0
  end.

Definition cont (b : Z) : bool := (0x80 <=? b) && (b <=? 0xBF).

(** The rune at the head of [s] and its width in bytes; an invalid or
    truncated sequence decodes to [RuneError] of width 1. *)
Definition DecodeRuneInString (s : string) : Z * nat :=
  match s with
  | EmptyString => (RuneError, 0%nat)
  | String c0 _ =>
      let s0 := byte_val c0 in
      if s0 <? 0x80 then (s0, 1%nat)
      else
        match first s0 with
        | None => (RuneError, 1%nat)
        | Some (sz, lo, hi) =>
            if (String.length s <? sz)%nat then (RuneError, 1%nat)
            else
              let s1 := byte_at s 1 in
              if (s1 <? lo) || (hi <? s1) then (RuneError, 1%nat)
              else if (sz <=? 2)%nat then
                (Z.lor (Z.shiftl (Z.land s0 0x1F) 6) (Z.land s1 0x3F), 2%nat)
              else
                let s2 := byte_at s 2 in
                if negb (cont s2) then (RuneError, 1%nat)
                else if (sz <=? 3)%nat then
                  (Z.lor (Z.lor (Z.shiftl (Z.land s0 0x0F) 12)
                                (Z.shiftl (Z.land s1 0x3F) 6))
                         (Z.land s2 0x3F), 3%nat)
                else
                  let s3 := byte_at s 3 in
                  if negb (cont s3) then (RuneError, 1%nat)
                  else
                    (Z.lor (Z.lor (Z.lor (Z.shiftl (Z.land s0 0x07) 18)
                                         (Z.shiftl (Z.land s1 0x3F) 12))
                                  (Z.shiftl (Z.land s2 0x3F) 6))
                           (Z.land s3 0x3F), 4%nat)
        end
  end.

(** [unicode.IsSpace]: the Latin-1 spaces, then the White_Space ranges
    above Latin-1. *)
Definition IsSpace (r : Z) : bool :=
  if r <=? 0xFF then
    (r =? 0x09) || (r =? 0x0A) || (r =? 0x0B) || (r =? 0x0C) || (r =? 0x0D)
    || (r =? 0x20) || (r =? 0x85) || (r =? 0xA0)
  else
    (r =? 0x1680) || ((0x2000 <=? r) && (r <=? 0x200A))
    || (r =? 0x2028) || (r =? 0x2029) || (r =? 0x202F) || (r =? 0x205F)
    || (r =? 0x3000).

(** *** [strings.Fields] *)

(** A field that ends is appended to the result only when it holds at
    least one byte. *)
Definition flush (tok : string) : list string :=
  match tok with
  | EmptyString => []
  | _ => [tok]
  end.

(** One pass over the bytes of [s].  [skip] counts the bytes still
    belonging to the rune decoded last, [sp] tells whether that rune is a
    space and [tok] is the field collected so far. *)
Fixpoint fieldsLoop (s : string) (skip : nat) (sp : bool) (tok : string)
  : list string :=
  match s with
  | EmptyString => flush tok
  | String c rest =>
      let '(sp', skip') :=
        match skip with
        | S k => (sp, k)
        | O => let '(r, size) := DecodeRuneInString s in
               (IsSpace r, pred size)
        end in
      if sp' then flush tok ++ fieldsLoop rest skip' sp' EmptyString
      else fieldsLoop rest skip' sp' (tok +:+ String c EmptyString)
  end.

(** [Fields] splits around each run of white space characters, as
    [unicode.IsSpace] defines them, and returns the substrings between
    the runs.  The library answers pure ASCII input on a faster path with
    the same result; the pass over the decoded runes covers both. *)
Definition Fields (s : string) : list string :=
  fieldsLoop s 0%nat true EmptyString.

End Go.

Import Go.

(** ** buddymon.go *)

Definition buddyPath : string := "proc_buddyinfo.txt".
Definition assertFieldCount : Z := 15.

(** [BuddyEntry] binds a set of page entries to node number and zone.  The
    [Pages] map is created by [makeBuddyEntry], filled there and only read
    afterwards; all the values stored in it are strings. *)
Record BuddyEntry : Type := mkBuddyEntry {
  Pages : gmap string string;
  Node : string;
  Zone : string
}.

(** The loop [for _, p := range pages] of [makeBuddyEntry], started with
    the map [m] and the current [pageOrder]. *)
Fixpoint fillPages (pages : list string) (pageOrder : Z)
    (m : gmap string string) : gmap string string :=
  match pages with
  | [] => m
  | p :: rest =>
      let name := fmt_d pageOrder +:+ "p" in
      fillPages rest (wrap_int (pageOrder * 2)) (<[name := p]> m)
  end.

(** The text of the error that [makeBuddyEntry] builds with [fmt.Errorf]
    from the format "found %d fields in %s (expected %d) in %v". *)
Definition fieldCountError (n : Z) (line : string) : string :=
  "found " +:+ fmt_d n +:+ " fields in " +:+ buddyPath
  +:+ " (expected " +:+ fmt_d assertFieldCount +:+ ") in " +:+ line.

Definition makeBuddyEntry (line : string) : result BuddyEntry :=
  let fields := Fields line in
  let n := Z.of_nat (length fields) in
  if negb (n =? assertFieldCount) then Err (fieldCountError n line)
  else
    f1 ← index fields 1;
    node ← byte0 f1;
    zone ← index fields 3;
    pages ← slice_from fields 4;
    Ok {| Node := string_of_byte node;
          Zone := zone;
          Pages := fillPages pages 1 ∅ |}.

(** ** The store, the settings and the InfluxDB client *)

(** A map value is a reference to a table in the store; a reference that
    has no table is the nil map.  [getConfig] stores into the map of global
    tags before [main] starts, so that map has a table when the loop runs;
    the properties of the assembly take this as their hypothesis. *)
Abbreviation loc := positive.
Abbreviation tagmap := (gmap string string).

Record InfluxSettings : Type := mkInfluxSettings {
  URL : string;
  Database : string;
  User : string;
  Password : string;
  Measurement : string;
  Hostname : string;
  UseHostname : bool;
  GlobalTags : loc;
  (** [main] sleeps [influxConfig.Interval]; the field belongs to the
      revision of the settings that goes with the looping [main]. *)
  Interval : Z
}.

(** A point as the client library keeps it: [client.NewPoint] serialises
    the tags and fields it is given, so a point holds the contents the maps
    had when it was created.  Time is counted in nanoseconds. *)
Record Point : Type := mkPoint {
  pt_name : string;
  pt_tags : tagmap;
  pt_fields : tagmap;
  pt_time : Z
}.

Record BatchPoints : Type := mkBatchPoints {
  bp_database : string;
  bp_precision : string;
  bp_points : list Point
}.

(** What the program does to the outside. *)
Inductive event : Type :=
| EvWrite (bp : BatchPoints)
| EvPrintln (s : string)
| EvLogFatal (s : string)
| EvSleep (d : Z).

(** The outside of the program during one cycle: the file system
    ([ioutil.ReadFile] gives the data or an error), the line scanner of
    package bufio, the clock and the InfluxDB client.  For the calls of the
    client a [Some] is the error the call returns. *)
Record World : Type := mkWorld {
  ReadFile : string -> string + string;
  ScanLines : string -> list string;
  Now : Z;
  NewHTTPClient : string -> string -> string -> option string;
  NewBatchPoints : string -> string -> option string;
  NewPoint_err : string -> tagmap -> tagmap -> Z -> option string;
  Write : BatchPoints -> option string
}.

Record state : Type := mkState {
  heap : gmap loc tagmap;
  trace : list event
}.

(** Programs thread the state and may stop early. *)
Definition Prog (A : Type) : Type := state -> result A * state.

#[export] Instance Prog_ret : MRet Prog := λ A a s, (Ok a, s).
#[export] Instance Prog_bind : MBind Prog := λ A B k m s,
  match m s with
  | (Ok a, s') => k a s'
  | (Err e, s') => (Err e, s')
  | (Panic msg, s') => (Panic msg, s')
  | (Exit c, s') => (Exit c, s')
  end.

Definition lift {A} (r : result A) : Prog A := λ s, (r, s).

Definition emit (ev : event) : Prog unit :=
  λ s, (Ok tt, {| heap := heap s; trace := trace s ++ [ev] |}).

(** [m[k] = v]; assigning into the nil map panics. *)
Definition mapAssign (m : loc) (k v : string) : Prog unit := λ s,
  match heap s !! m with
  | Some tbl =>
      (Ok tt, {| heap := <[m := <[k := v]> tbl]> (heap s); trace := trace s |})
  | None => (Panic "assignment to entry in nil map", s)
  end.

(** The contents of a map; the nil map reads as empty. *)
Definition mapContents (m : loc) (h : gmap loc tagmap) : tagmap :=
  default ∅ (h !! m).

Definition NewPoint (w : World) (name : string) (tags : loc)
    (fields : tagmap) (t : Z) : Prog Point := λ s,
  let tbl := mapContents tags (heap s) in
  match NewPoint_err w name tbl fields t with
  | Some err => (Err err, s)
  | None =>
      (Ok {| pt_name := name; pt_tags := tbl; pt_fields := fields;
             pt_time := t |}, s)
  end.

Definition log_Fatal {A} (msg : string) : Prog A := λ s,
  (Exit 1, {| heap := heap s; trace := trace s ++ [EvLogFatal msg] |}).

Definition fmt_Println (msg : string) : Prog unit := emit (EvPrintln msg).
Definition time_Sleep (d : Z) : Prog unit := emit (EvSleep d).

(** ** buddymon.go, continued *)

(** The loop of [updateInflux] that adds a point for each entry: [t] is
    the time of the next point and [bp] the points added so far. *)
Fixpoint addPoints (w : World) (influx : InfluxSettings)
    (batch : list BuddyEntry) (t : Z) (bp : list Point) : Prog (list Point) :=
  match batch with
  | [] => mret bp
  | entry :: rest =>
      let tags := GlobalTags influx in
      mapAssign tags "node" (Node entry);;
      mapAssign tags "zone" (Zone entry);;
      pt ← NewPoint w (Measurement influx) tags (Pages entry) t;
      addPoints w influx rest (t + 1) (bp ++ [pt])
  end.

Definition updateInflux (w : World) (influx : InfluxSettings)
    (batch : list BuddyEntry) : Prog unit :=
  match NewHTTPClient w (URL influx) (User influx) (Password influx) with
  | Some err => lift (Err err)
  | None =>
      match NewBatchPoints w (Database influx) "ns" with
      | Some err => lift (Err err)
      | None =>
          let t := Now w in
          pts ← addPoints w influx batch t [];
          let bp := {| bp_database := Database influx; bp_precision := "ns";
                       bp_points := pts |} in
          emit (EvWrite bp);;
          match Write w bp with
          | Some err => lift (Err err)
          | None => mret tt
          end
      end
  end.

Definition slurpLines (w : World) (path : string)
    : list string * option string :=
  match ReadFile w path with
  | inr err => ([], Some err)
  | inl data => (ScanLines w data, None)
  end.

(** The loop of [processBuddyInfo] over the lines. *)
Fixpoint collectBatch (lines : list string) (batch : list BuddyEntry)
    : result (list BuddyEntry) :=
  match lines with
  | [] => Ok batch
  | line :: rest =>
      entry ← makeBuddyEntry line;
      collectBatch rest (batch ++ [entry])
  end.

Definition processBuddyInfo (w : World) (influx : InfluxSettings)
    : Prog unit :=
  let '(lines, err) := slurpLines w buddyPath in
  match err with
  | Some e => log_Fatal e
  | None =>
      batch ← lift (collectBatch lines []);
      updateInflux w influx batch
  end.

(** One turn of the loop of [main]. *)
Definition cycle (w : World) (influx : InfluxSettings) : Prog unit := λ s,
  let '(r, s1) := processBuddyInfo w influx s in
  match r with
  | Ok _ => time_Sleep (Interval influx) s1
  | Err e =>
      (fmt_Println ("ERROR: " +:+ e);; time_Sleep (Interval influx)) s1
  | Panic msg => (Panic msg, s1)
  | Exit c => (Exit c, s1)
  end.

(** [main] never returns; [run] is its execution over the first cycles,
    one world for each.  [Ok] means the loop is about to start the next
    cycle. *)
Fixpoint run (ws : list World) (influx : InfluxSettings) : Prog unit :=
  match ws with
  | [] => mret tt
  | w :: rest => cycle w influx;; run rest influx
  end.

(** The contents of the tag map after the two assignments
    [tags["node"] = entry.Node] and [tags["zone"] = entry.Zone], when it
    held [G] before them. *)
Definition entryTags (entry : BuddyEntry) (G : tagmap) : tagmap :=
  <["zone" := Zone entry]> (<["node" := Node entry]> G).

(** The point expected at position [i] of a batch that started at time
    [t0] with the static tags [G]: the entry's fields, the static tags
    overridden by the entry's node and zone, and the time [t0] plus [i]
    nanoseconds. *)
Definition pointAt (influx : InfluxSettings) (G : tagmap) (t0 : Z)
    (i : nat) (entry : BuddyEntry) : Point :=
  {| pt_name := Measurement influx; pt_tags := entryTags entry G;
     pt_fields := Pages entry; pt_time := t0 + Z.of_nat i |}.


(** ** Sample data: the buddyinfo block quoted in the source *)

Definition sample_line : string :=
  "Node 0, zone      DMA      1      1      1      0      2      1      1      0      1      1      3".

Definition sample_lines : list string :=
  [ sample_line;
    "Node 0, zone    DMA32      3      6      5      3      3      4      2      4      3      1    270";
    "Node 0, zone   Normal  23821   5715     90     16      8      4      9      2      0      0      0";
    "Node 1, zone   Normal   3888  10304    405    139     50     59     38     19      4      2      9" ].

Definition short_line : string :=
  "Node 0, zone      DMA      1      1      1      0      2      1      1      0      1      1".

Definition sample_entry : BuddyEntry :=
  {| Node := "0"; Zone := "DMA";
     Pages := list_to_map
       [("1p", "1"); ("2p", "1"); ("4p", "1"); ("8p", "0"); ("16p", "2");
        ("32p", "1"); ("64p", "1"); ("128p", "0"); ("256p", "1");
        ("512p", "1"); ("1024p", "3")] |}.

Definition sample_batch : list BuddyEntry :=
  match collectBatch sample_lines [] with
  | Ok batch => batch
  | _ => []
  end.

Definition sample_settings : InfluxSettings :=
  {| URL := "http://localhost:8086"; Database := "buddyinfo"; User := "";
     Password := ""; Measurement := "buddyinfo"; Hostname := "box";
     UseHostname := true; GlobalTags := 1%positive;
     Interval := 10000000000 |}.

(** A store whose static tags already hold a key named node. *)
Definition sample_tags : tagmap :=
  <["node" := "static"]> (<["host" := "box"]> ∅).

Definition sample_state : state :=
  {| heap := {[ 1%positive := sample_tags ]}; trace := [] |}.

(** A store whose static tags hold neither node nor zone. *)
Definition host_state : state :=
  {| heap := {[ 1%positive := <["host" := "box"]> ∅ ]}; trace := [] |}.

(** A world in which every call succeeds and the file holds [lines]. *)
Definition world_of (lines : list string) : World :=
  {| ReadFile := λ _, inl "";
     ScanLines := λ _, lines;
     Now := 1000;
     NewHTTPClient := λ _ _ _, None;
     NewBatchPoints := λ _ _, None;
     NewPoint_err := λ _ _ _ _, None;
     Write := λ _, None |}.

Definition sample_world : World := world_of sample_lines.

(** A world whose InfluxDB server refuses the write. *)
Definition refusing_world : World :=
  {| ReadFile := λ _, inl "";
     ScanLines := λ _, sample_lines;
     Now := 1000;
     NewHTTPClient := λ _ _ _, None;
     NewBatchPoints := λ _ _, None;
     NewPoint_err := λ _ _ _ _, None;
     Write := λ _, Some "connection refused" |}.

(** A world in which the file cannot be read. *)
Definition unreadable_world : World :=
  {| ReadFile := λ _, inr "open proc_buddyinfo.txt: no such file or directory";
     ScanLines := λ _, [];
     Now := 1000;
     NewHTTPClient := λ _ _ _, None;
     NewBatchPoints := λ _ _, None;
     NewPoint_err := λ _ _ _ _, None;
     Write := λ _, None |}.

(** The batch written by [updateInflux] on the sample data. *)
Definition sample_written : BatchPoints :=
  match trace (updateInflux sample_world sample_settings sample_batch
                 sample_state).2 with
  | [EvWrite bp] => bp
  | _ => {| bp_database := ""; bp_precision := ""; bp_points := [] |}
  end.

(** ** Helpers for stating the properties *)

(** The six white space bytes of ASCII. *)
Definition asciiSpace (c : ascii) : bool :=
  let v := byte_val c in
  (v =? 0x09) || (v =? 0x0A) || (v =? 0x0B) || (v =? 0x0C) || (v =? 0x0D)
  || (v =? 0x20).


Fixpoint allBytes (P : ascii -> bool) (s : string) : bool :=
  match s with
  | EmptyString => true
  | String c rest => P c && allBytes P rest
  end.




(** Two tag maps that differ at most under the keys node and zone. *)
Definition sameOffNodeZone (G G' : tagmap) : Prop :=
  ∀ k, k ≠ "node" → k ≠ "zone" → G !! k = G' !! k.

(** A world in which the file can be read. *)
Definition readable (w : World) : Prop :=
  ∃ data, ReadFile w buddyPath = inl data.

(** The batches written in a stretch of the trace, in order. *)
Definition writes (tr : list event) : list BatchPoints :=
  omap (λ ev, match ev with EvWrite bp => Some bp | _ => None end) tr.

Definition sleeps (tr : list event) : list Z :=
  omap (λ ev, match ev with EvSleep d => Some d | _ => None end) tr.

(** A world whose client refuses the third point of a batch. *)
Definition picky_world : World :=
  {| ReadFile := λ _, inl "";
     ScanLines := λ _, sample_lines;
     Now := 1000;
     NewHTTPClient := λ _ _ _, None;
     NewBatchPoints := λ _ _, None;
     NewPoint_err := λ _ _ _ t,
       if t =? 1002 then Some "time outside range" else None;
     Write := λ _, None |}.

(** ** Sample lines whose node tokens share the first byte *)



(** ** Properties of the line parser *)

Lemma flush_nonempty tok : Forall (λ t, t ≠ EmptyString) (flush tok).
Proof. destruct tok; simpl; repeat constructor; discriminate. Qed.

Lemma fieldsLoop_nonempty s : ∀ skip sp tok,
  Forall (λ t, t ≠ EmptyString) (fieldsLoop s skip sp tok).
Proof.
  induction s as [|c rest IH]; intros skip sp tok.
  - apply flush_nonempty.
  - cbn [fieldsLoop].
    destruct skip as [|k].
    + destruct (DecodeRuneInString (String c rest)) as [r size].
      destruct (IsSpace r).
      * apply Forall_app; split; [apply flush_nonempty | apply IH].
      * apply IH.
    + destruct sp.
      * apply Forall_app; split; [apply flush_nonempty | apply IH].
      * apply IH.
Qed.

Lemma Fields_nonempty line tok : tok ∈ Fields line → tok ≠ EmptyString.
Proof.
  intros Hin. pose proof (fieldsLoop_nonempty line 0%nat true EmptyString) as HF.
  rewrite Forall_forall in HF. by apply HF.
Qed.

Lemma fillPages_eleven p0 p1 p2 p3 p4 p5 p6 p7 p8 p9 p10 :
  fillPages [p0; p1; p2; p3; p4; p5; p6; p7; p8; p9; p10] 1 ∅ =
  <["1024p" := p10]> (<["512p" := p9]> (<["256p" := p8]> (<["128p" := p7]>
  (<["64p" := p6]> (<["32p" := p5]> (<["16p" := p4]> (<["8p" := p3]>
  (<["4p" := p2]> (<["2p" := p1]> (<["1p" := p0]> ∅)))))))))).
Proof. reflexivity. Qed.

Lemma Fields_fifteen line :
  length (Fields line) = 15%nat →
  ∃ t0 f1 t2 zone p0 p1 p2 p3 p4 p5 p6 p7 p8 p9 p10,
    Fields line = [t0; f1; t2; zone; p0; p1; p2; p3; p4; p5; p6; p7; p8; p9; p10].
Proof.
  intros Hlen. destruct (Fields line) as [|t0 l]; [discriminate|].
  do 14 (destruct l as [|? l]; [discriminate|]).
  destruct l; [|discriminate]. eauto 20.
Qed.

Lemma makeBuddyEntry_fifteen line t0 f1 t2 zone pages :
  Fields line = t0 :: f1 :: t2 :: zone :: pages →
  length pages = 11%nat →
  ∃ c rest, f1 = String c rest ∧
    makeBuddyEntry line =
      Ok {| Node := string_of_byte c; Zone := zone;
            Pages := fillPages pages 1 ∅ |}.
Proof.
  intros HF Hlen.
  assert (f1 ≠ EmptyString) as Hne.
  { apply (Fields_nonempty line). rewrite HF. set_solver. }
  destruct f1 as [|c rest]; [done|].
  exists c, rest. split; [done|].
  unfold makeBuddyEntry. rewrite HF.
  cbn [length]. rewrite Hlen.
  reflexivity.
Qed.

Lemma makeBuddyEntry_mismatch line :
  length (Fields line) ≠ 15%nat →
  makeBuddyEntry line =
    Err (fieldCountError (Z.of_nat (length (Fields line))) line).
Proof.
  intros Hne. unfold makeBuddyEntry.
  destruct (Z.eqb_spec (Z.of_nat (length (Fields line))) assertFieldCount)
    as [Heq|Hneq].
  - unfold assertFieldCount in Heq. lia.
  - reflexivity.
Qed.


Lemma fillPages_size pages :
  length pages = 11%nat → size (fillPages pages 1 ∅) = 11%nat.
Proof.
  intros Hlen.
  do 11 (destruct pages as [|? pages]; [discriminate|]).
  destruct pages; [|discriminate].
  rewrite fillPages_eleven.
  repeat (rewrite map_size_insert_None; [|by simplify_map_eq]).
  by rewrite map_size_empty.
Qed.

Lemma makeBuddyEntry_Ok_inv line e :
  makeBuddyEntry line = Ok e →
  length (Fields line) = 15%nat ∧
  length (drop 4 (Fields line)) = 11%nat ∧
  Pages e = fillPages (drop 4 (Fields line)) 1 ∅ ∧
  Fields line !! 3%nat = Some (Zone e) ∧
  ∃ c rest, Fields line !! 1%nat = Some (String c rest) ∧
            Node e = string_of_byte c.
Proof.
  intros Hok.
  destruct (decide (length (Fields line) = 15%nat)) as [Hlen|Hlen].
  - destruct (Fields_fifteen line Hlen)
      as (t0 & f1 & t2 & zone & p0 & p1 & p2 & p3 & p4 & p5 & p6 & p7 & p8
          & p9 & p10 & HF).
    destruct (makeBuddyEntry_fifteen line t0 f1 t2 zone
                [p0; p1; p2; p3; p4; p5; p6; p7; p8; p9; p10] HF eq_refl)
      as (c & rest & -> & Hmk).
    rewrite Hmk in Hok. injection Hok as <-.
    rewrite HF. cbn [drop length lookup list_lookup Pages Zone Node].
    repeat split; try done. by exists c, rest.
  - rewrite (makeBuddyEntry_mismatch line Hlen) in Hok. discriminate.
Qed.

Lemma collectBatch_first_bad good : ∀ bad rest acc,
  Forall (λ l, length (Fields l) = 15%nat) good →
  length (Fields bad) ≠ 15%nat →
  collectBatch (good ++ bad :: rest) acc =
    Err (fieldCountError (Z.of_nat (length (Fields bad))) bad).
Proof.
  induction good as [|l good IH]; intros bad rest acc Hgood Hbad.
  - cbn [app collectBatch]. rewrite (makeBuddyEntry_mismatch bad Hbad).
    reflexivity.
  - inversion Hgood as [|? ? Hl Hgood']; subst.
    destruct (Fields_fifteen l Hl)
      as (t0 & f1 & t2 & zone & p0 & p1 & p2 & p3 & p4 & p5 & p6 & p7 & p8
          & p9 & p10 & HF).
    destruct (makeBuddyEntry_fifteen l t0 f1 t2 zone
                [p0; p1; p2; p3; p4; p5; p6; p7; p8; p9; p10] HF eq_refl)
      as (c & rest' & _ & Hmk).
    cbn [app collectBatch]. rewrite Hmk. cbn [mbind result_bind].
    by apply IH.
Qed.

Lemma first_bad_line (lines : list string) line :
  line ∈ lines → length (Fields line) ≠ 15%nat →
  ∃ good bad rest, lines = (good ++ bad :: rest)%list ∧
    Forall (λ l, length (Fields l) = 15%nat) good ∧
    length (Fields bad) ≠ 15%nat.
Proof.
  induction lines as [|l lines IH]; intros Hin Hbad.
  - by apply elem_of_nil in Hin.
  - destruct (decide (length (Fields l) = 15%nat)) as [Hl|Hl].
    + apply elem_of_cons in Hin as [->|Hin]; [done|].
      destruct (IH Hin Hbad) as (good & bad & rest & -> & Hgood & Hb).
      exists (l :: good), bad, rest. split; [done|]. split; [|done].
      by constructor.
    + exists [], l, lines. split; [done|]. split; [constructor | done].
Qed.

Lemma processBuddyInfo_bad_line w influx s data good bad rest :
  ReadFile w buddyPath = inl data →
  ScanLines w data = (good ++ bad :: rest)%list →
  Forall (λ l, length (Fields l) = 15%nat) good →
  length (Fields bad) ≠ 15%nat →
  processBuddyInfo w influx s =
    (Err (fieldCountError (Z.of_nat (length (Fields bad))) bad), s).
Proof.
  intros Hread Hscan Hgood Hbad.
  unfold processBuddyInfo, slurpLines. rewrite Hread, Hscan.
  cbn [mbind Prog_bind lift].
  by rewrite (collectBatch_first_bad good bad rest [] Hgood Hbad).
Qed.

Lemma makeBuddyEntry_Ok line :
  length (Fields line) = 15%nat →
  ∃ e, makeBuddyEntry line = Ok e ∧
       length (drop 4 (Fields line)) = 11%nat ∧
       Pages e = fillPages (drop 4 (Fields line)) 1 ∅ ∧
       size (Pages e) = 11%nat.
Proof.
  intros Hlen.
  destruct (Fields_fifteen line Hlen)
    as (t0 & f1 & t2 & zone & p0 & p1 & p2 & p3 & p4 & p5 & p6 & p7 & p8
        & p9 & p10 & HF).
  destruct (makeBuddyEntry_fifteen line t0 f1 t2 zone
              [p0; p1; p2; p3; p4; p5; p6; p7; p8; p9; p10] HF eq_refl)
    as (c & rest & _ & Hmk).
  eexists. split; [exact Hmk|]. rewrite HF.
  cbn [drop Pages]. split; [done|]. split; [done|].
  by apply fillPages_size.
Qed.

(** C1.  A line parses exactly when [strings.Fields] splits it into 15
    tokens.  On success 11 run counts follow the four leading tokens and the
    entry holds 11 page fields.  On any other count the parser returns the
    field-count error, whose text names the count found, the expected 15 and
    the line; a cycle whose file holds such a line returns an error of that
    kind and leaves the state as it was: nothing is assembled and the write
    is not invoked. *)
Theorem C1_field_count (line : string) :
  let n := length (Fields line) in
  ((∃ e, makeBuddyEntry line = Ok e) ↔ n = 15%nat) ∧
  (n = 15%nat →
     ∃ e, makeBuddyEntry line = Ok e ∧
          length (drop 4 (Fields line)) = 11%nat ∧
          Pages e = fillPages (drop 4 (Fields line)) 1 ∅ ∧
          size (Pages e) = 11%nat) ∧
  (n ≠ 15%nat →
     makeBuddyEntry line = Err (fieldCountError (Z.of_nat n) line) ∧
     fieldCountError (Z.of_nat n) line =
       "found " +:+ fmt_d (Z.of_nat n)
       +:+ " fields in proc_buddyinfo.txt (expected 15) in " +:+ line ∧
     ∀ w influx s data,
       ReadFile w buddyPath = inl data →
       line ∈ ScanLines w data →
       ∃ bad, bad ∈ ScanLines w data ∧ length (Fields bad) ≠ 15%nat ∧
         processBuddyInfo w influx s =
           (Err (fieldCountError (Z.of_nat (length (Fields bad))) bad), s)).
Proof.
  intros n. subst n.
  pose proof (makeBuddyEntry_Ok line) as Hgood.
  split; [split|split].
  - intros [e He]. by apply makeBuddyEntry_Ok_inv in He as [? _].
  - intros Hlen. destruct (Hgood Hlen) as (e & He & _). by exists e.
  - exact Hgood.
  - intros Hbad. split; [by apply makeBuddyEntry_mismatch|].
    split; [reflexivity|].
    intros w influx s data Hread Hin.
    destruct (first_bad_line _ _ Hin Hbad)
      as (good & bad & rest & Hsplit & Hgood' & Hb).
    exists bad. split; [rewrite Hsplit; set_solver|]. split; [done|].
    by apply (processBuddyInfo_bad_line w influx s data good bad rest).
Qed.

Lemma C1_field_count_witness :
  (∃ e, makeBuddyEntry sample_line = Ok e ∧ size (Pages e) = 11%nat) ∧
  ∃ bad, bad ∈ [sample_line; short_line] ∧
    processBuddyInfo (world_of [sample_line; short_line]) sample_settings
      sample_state =
      (Err (fieldCountError (Z.of_nat (length (Fields bad))) bad),
       sample_state).
Proof.
  split.
  - destruct (C1_field_count sample_line) as (_ & Hok & _).
    destruct (Hok eq_refl) as (e & He & _ & _ & Hsize). by exists e.
  - destruct (C1_field_count short_line) as (_ & _ & Hbad).
    destruct Hbad as (_ & _ & Hcycle); [vm_compute; discriminate|].
    destruct (Hcycle (world_of [sample_line; short_line]) sample_settings
                sample_state "" eq_refl) as (bad & Hin & _ & Hrun).
    + cbn. set_solver.
    + by exists bad.
Defined.

(** C10.  The parser is total: on every line it returns an entry or the
    field-count error, and neither panics nor exits.  [strings.Fields]
    yields no empty token, so once 15 tokens are counted the index
    expressions [fields[1]], [fields[1][0]] and [fields[3]] and the slice
    [fields[4:]] are in bounds, and the slice holds 11 tokens. *)
Theorem C10_parser_total (line : string) :
  (∀ tok, tok ∈ Fields line → tok ≠ EmptyString) ∧
  ((∃ e, makeBuddyEntry line = Ok e) ∨
   makeBuddyEntry line =
     Err (fieldCountError (Z.of_nat (length (Fields line))) line)) ∧
  (length (Fields line) = 15%nat →
     ∃ f1 node zone pages,
       index (Fields line) 1 = Ok f1 ∧ byte0 f1 = Ok node ∧
       index (Fields line) 3 = Ok zone ∧
       slice_from (Fields line) 4 = Ok pages ∧ length pages = 11%nat).
Proof.
  split; [intros tok; apply Fields_nonempty|]. split.
  - destruct (decide (length (Fields line) = 15%nat)) as [Hlen|Hlen].
    + left. destruct (makeBuddyEntry_Ok line Hlen) as (e & He & _).
      by exists e.
    + right. by apply makeBuddyEntry_mismatch.
  - intros Hlen.
    destruct (Fields_fifteen line Hlen)
      as (t0 & f1 & t2 & zone & p0 & p1 & p2 & p3 & p4 & p5 & p6 & p7 & p8
          & p9 & p10 & HF).
    assert (f1 ≠ EmptyString) as Hne.
    { apply (Fields_nonempty line). rewrite HF. set_solver. }
    destruct f1 as [|c rest]; [done|].
    exists (String c rest), c, zone,
      [p0; p1; p2; p3; p4; p5; p6; p7; p8; p9; p10].
    rewrite HF. repeat split; reflexivity.
Qed.

Lemma C10_parser_total_witness :
  ∃ f1 node zone pages,
    index (Fields sample_line) 1 = Ok f1 ∧ byte0 f1 = Ok node ∧
    index (Fields sample_line) 3 = Ok zone ∧
    slice_from (Fields sample_line) 4 = Ok pages ∧ length pages = 11%nat.
Proof.
  destruct (C10_parser_total sample_line) as (_ & _ & Hidx).
  apply Hidx. reflexivity.
Defined.

(** ** Properties of the batch assembly *)

Lemma entryTags_node e (G : tagmap) : entryTags e G !! "node" = Some (Node e).
Proof.
  unfold entryTags. rewrite lookup_insert_ne by done.
  by rewrite lookup_insert_eq.
Qed.

Lemma entryTags_zone e (G : tagmap) : entryTags e G !! "zone" = Some (Zone e).
Proof. unfold entryTags. by rewrite lookup_insert_eq. Qed.

Lemma entryTags_other e (G : tagmap) k :
  k ≠ "node" → k ≠ "zone" → entryTags e G !! k = G !! k.
Proof. intros Hn Hz. unfold entryTags. by rewrite !lookup_insert_ne. Qed.

(** The assignments of one turn hide those of the turns before. *)
Lemma entryTags_absorb e e' (G : tagmap) :
  entryTags e (entryTags e' G) = entryTags e G.
Proof.
  apply map_eq. intros k.
  destruct (decide (k = "node")) as [->|Hn]; [by rewrite !entryTags_node|].
  destruct (decide (k = "zone")) as [->|Hz]; [by rewrite !entryTags_zone|].
  by rewrite !entryTags_other.
Qed.

Lemma addPoints_cons w influx e rest t bp s (G : tagmap) :
  heap s !! GlobalTags influx = Some G →
  addPoints w influx (e :: rest) t bp s =
    let s2 := {| heap := <[GlobalTags influx := entryTags e G]> (heap s);
                 trace := trace s |} in
    match NewPoint_err w (Measurement influx) (entryTags e G) (Pages e) t with
    | Some err => (Err err, s2)
    | None =>
        addPoints w influx rest (t + 1)
          (bp ++ [{| pt_name := Measurement influx;
                     pt_tags := entryTags e G; pt_fields := Pages e;
                     pt_time := t |}]) s2
    end.
Proof.
  intros HG. cbn [addPoints].
  unfold mbind, Prog_bind, mapAssign, NewPoint, mapContents.
  rewrite HG. cbn [heap trace]. rewrite lookup_insert_eq.
  cbn [heap trace]. rewrite lookup_insert_eq, insert_insert_eq.
  cbn [default from_option id]. fold (entryTags e G). change (id ?x) with x.
  by destruct (NewPoint_err w (Measurement influx) (entryTags e G) (Pages e) t).
Qed.

Lemma addPoints_spec w influx batch : ∀ t bp s (G : tagmap),
  heap s !! GlobalTags influx = Some G →
  ∃ r s', addPoints w influx batch t bp s = (r, s') ∧
    trace s' = trace s ∧
    (∀ l, l ≠ GlobalTags influx → heap s' !! l = heap s !! l) ∧
    match r with
    | Ok pts =>
        pts = (bp ++ imap (pointAt influx G t) batch)%list ∧
        heap s' !! GlobalTags influx =
          Some (match last batch with
                | Some e => entryTags e G
                | None => G
                end)
    | Err err =>
        ∃ i e, batch !! i = Some e ∧
          NewPoint_err w (Measurement influx) (entryTags e G) (Pages e)
            (t + Z.of_nat i) = Some err ∧
          heap s' !! GlobalTags influx = Some (entryTags e G)
    | Panic _ | Exit _ => False
    end.
Proof.
  induction batch as [|e rest IH]; intros t bp s G HG.
  - exists (Ok bp), s. cbn [addPoints imap last].
    rewrite app_nil_r. by repeat split.
  - rewrite (addPoints_cons w influx e rest t bp s G HG). cbn zeta.
    destruct (NewPoint_err w (Measurement influx) (entryTags e G) (Pages e) t)
      as [err|] eqn:Hnp.
    + eexists (Err err), _. split; [reflexivity|]. cbn [heap trace].
      split; [done|]. split; [intros l Hl; by rewrite lookup_insert_ne|].
      exists 0%nat, e. rewrite Z.add_0_r, lookup_insert_eq. by repeat split.
    + set (s2 := {| heap := <[GlobalTags influx := entryTags e G]> (heap s);
                    trace := trace s |}).
      set (pt := {| pt_name := Measurement influx; pt_tags := entryTags e G;
                    pt_fields := Pages e; pt_time := t |}).
      destruct (IH (t + 1) (bp ++ [pt])%list s2 (entryTags e G))
        as (r & s' & Hrun & Htr & Hframe & Hr).
      { apply lookup_insert_eq. }
      exists r, s'. split; [done|]. split; [done|]. split.
      { intros l Hl. rewrite (Hframe l Hl). by apply lookup_insert_ne. }
      destruct r as [pts|err|msg|c]; [| |done|done].
      * destruct Hr as [-> Hheap]. split.
        -- rewrite imap_cons, <- app_assoc. cbn [app]. f_equal. f_equal.
           { unfold pointAt, pt. by rewrite Z.add_0_r. }
           apply imap_ext. intros i x _. unfold pointAt, compose.
           rewrite entryTags_absorb. f_equal. lia.
        -- rewrite Hheap, last_cons.
           destruct (last rest); [by rewrite entryTags_absorb|done].
      * destruct Hr as (i & x & Hix & Herr & Hheap).
        exists (S i), x. rewrite entryTags_absorb in Herr, Hheap.
        split; [done|]. split; [|done].
        by replace (t + Z.of_nat (S i)) with (t + 1 + Z.of_nat i) by lia.
Qed.

(** What a call of [updateInflux] does, for static tags holding [G]:
    either the batch is assembled and handed to [Write], or the call
    returns an error before and writes nothing. *)
Lemma updateInflux_spec w influx batch s (G : tagmap) :
  heap s !! GlobalTags influx = Some G →
  ∃ r s', updateInflux w influx batch s = (r, s') ∧
    (∀ l, l ≠ GlobalTags influx → heap s' !! l = heap s !! l) ∧
    is_Some (heap s' !! GlobalTags influx) ∧
    ((∃ bp, trace s' = (trace s ++ [EvWrite bp])%list ∧
        bp = {| bp_database := Database influx; bp_precision := "ns";
                bp_points := imap (pointAt influx G (Now w)) batch |} ∧
        heap s' !! GlobalTags influx =
          Some (match last batch with
                | Some e => entryTags e G
                | None => G
                end) ∧
        r = match Write w bp with Some err => Err err | None => Ok tt end)
     ∨ (trace s' = trace s ∧ ∃ err, r = Err err)).
Proof.
  intros HG. unfold updateInflux.
  destruct (NewHTTPClient w (URL influx) (User influx) (Password influx))
    as [err|].
  { exists (Err err), s. unfold lift. repeat split; eauto. }
  destruct (NewBatchPoints w (Database influx) "ns") as [err|].
  { exists (Err err), s. unfold lift. repeat split; eauto. }
  destruct (addPoints_spec w influx batch (Now w) [] s G HG)
    as (r & s1 & Hrun & Htr & Hframe & Hr).
  unfold mbind at 1. unfold Prog_bind at 1. rewrite Hrun.
  destruct r as [pts|err|msg|c]; [| |done|done].
  - destruct Hr as [-> Hheap]. cbn [app].
    set (bp := {| bp_database := Database influx; bp_precision := "ns";
                  bp_points := imap (pointAt influx G (Now w)) batch |}).
    unfold mbind, Prog_bind, emit, lift, mret, Prog_ret.
    destruct (Write w bp) as [err|] eqn:HW;
      (eexists _, _; split; [reflexivity|]; cbn [heap trace];
       split; [done|]; split; [by eexists|]; left; exists bp;
       rewrite Htr, HW; by repeat split).
  - destruct Hr as (i & e & _ & _ & Hheap).
    exists (Err err), s1. split; [done|]. split; [done|].
    split; [by eexists|]. right. eauto.
Qed.

Lemma updateInflux_written w influx batch s (G : tagmap) bp :
  heap s !! GlobalTags influx = Some G →
  trace (updateInflux w influx batch s).2 = (trace s ++ [EvWrite bp])%list →
  bp = {| bp_database := Database influx; bp_precision := "ns";
          bp_points := imap (pointAt influx G (Now w)) batch |} ∧
  heap (updateInflux w influx batch s).2 !! GlobalTags influx =
    Some (match last batch with Some e => entryTags e G | None => G end) ∧
  (updateInflux w influx batch s).1 =
    match Write w bp with Some err => Err err | None => Ok tt end.
Proof.
  intros HG Htrace.
  destruct (updateInflux_spec w influx batch s G HG)
    as (r & s' & Hrun & _ & _ & [(bp' & Htr & Hbp & Hheap & Hr)|[Htr _]]);
    rewrite Hrun in Htrace |- *; cbn [fst snd] in *.
  - rewrite Htr in Htrace. apply app_inv_head in Htrace.
    injection Htrace as <-. by subst bp'.
  - rewrite Htr in Htrace. apply (f_equal length) in Htrace.
    rewrite length_app in Htrace. cbn [length] in Htrace. lia.
Qed.

(** When the client accepts every call, the batch reaches [Write]. *)
Lemma updateInflux_writes w influx batch s (G : tagmap) :
  heap s !! GlobalTags influx = Some G →
  NewHTTPClient w (URL influx) (User influx) (Password influx) = None →
  NewBatchPoints w (Database influx) "ns" = None →
  (∀ name tags fields t, NewPoint_err w name tags fields t = None) →
  ∃ bp, trace (updateInflux w influx batch s).2 = (trace s ++ [EvWrite bp])%list.
Proof.
  intros HG Hc Hb Hp.
  destruct (addPoints_spec w influx batch (Now w) [] s G HG)
    as (r & s1 & Hrun & Htr & _ & Hr).
  unfold updateInflux. rewrite Hc, Hb.
  unfold mbind at 1. unfold Prog_bind at 1. rewrite Hrun.
  destruct r as [pts|err|msg|c]; [| |done|done].
  - eexists. unfold mbind, Prog_bind, emit.
    match goal with |- context [Write w ?b] => destruct (Write w b) end;
      unfold lift, mret, Prog_ret; cbn [snd trace]; by rewrite Htr.
  - destruct Hr as (i & e & _ & Herr & _). by rewrite Hp in Herr.
Qed.

Lemma imap_pointAt_lookup influx (G : tagmap) t0 batch i :
  imap (pointAt influx G t0) batch !! i = pointAt influx G t0 i <$> batch !! i.
Proof. apply list_lookup_imap. Qed.

Lemma imap_pointAt_time influx (G : tagmap) t0 batch i p :
  imap (pointAt influx G t0) batch !! i = Some p →
  pt_time p = t0 + Z.of_nat i.
Proof.
  rewrite imap_pointAt_lookup. destruct (batch !! i); [|done].
  by intros [= <-].
Qed.

(** ** The claims *)

(** C2.  The first line of the sample splits into the 15 tokens shown; it
    parses to node 0 (the first byte of the token "0,"), zone DMA (the
    fourth token as it stands) and the 11 run counts as the strings they
    are.  The fields of its point are exactly 1p to 1024p with those
    strings, and whatever the static tags hold, the tags of its point map
    node to 0 and zone to DMA. *)
Theorem C2_sample_line :
  Fields sample_line =
    ["Node"; "0,"; "zone"; "DMA";
     "1"; "1"; "1"; "0"; "2"; "1"; "1"; "0"; "1"; "1"; "3"] ∧
  slice_from (Fields sample_line) 4 =
    Ok ["1"; "1"; "1"; "0"; "2"; "1"; "1"; "0"; "1"; "1"; "3"] ∧
  makeBuddyEntry sample_line =
    Ok {| Node := "0"; Zone := "DMA";
          Pages := list_to_map
            [("1p", "1"); ("2p", "1"); ("4p", "1"); ("8p", "0");
             ("16p", "2"); ("32p", "1"); ("64p", "1"); ("128p", "0");
             ("256p", "1"); ("512p", "1"); ("1024p", "3")] |} ∧
  ∀ w influx s (G : tagmap) e bp,
    makeBuddyEntry sample_line = Ok e →
    heap s !! GlobalTags influx = Some G →
    trace (updateInflux w influx [e] s).2 = (trace s ++ [EvWrite bp])%list →
    ∃ pt, bp_points bp = [pt] ∧
      pt_fields pt = list_to_map
        [("1p", "1"); ("2p", "1"); ("4p", "1"); ("8p", "0");
         ("16p", "2"); ("32p", "1"); ("64p", "1"); ("128p", "0");
         ("256p", "1"); ("512p", "1"); ("1024p", "3")] ∧
      pt_tags pt !! "node" = Some "0" ∧
      pt_tags pt !! "zone" = Some "DMA" ∧
      ∀ k, k ≠ "node" → k ≠ "zone" → pt_tags pt !! k = G !! k.
Proof.
  split; [reflexivity|]. split; [reflexivity|]. split; [reflexivity|].
  intros w influx s G e bp He HG Htrace.
  assert (makeBuddyEntry sample_line = Ok sample_entry) as Hs by reflexivity.
  rewrite Hs in He. injection He as <-.
  destruct (updateInflux_written w influx [sample_entry] s G bp HG Htrace)
    as (-> & _ & _).
  eexists. split; [reflexivity|]. cbn [pt_fields pt_tags pointAt].
  split; [reflexivity|]. split; [apply entryTags_node|].
  split; [apply entryTags_zone|]. intros k. apply entryTags_other.
Qed.

Lemma C2_sample_line_witness :
  ∃ bp pt, trace (updateInflux sample_world sample_settings [sample_entry]
                    sample_state).2 = [EvWrite bp] ∧
    bp_points bp = [pt] ∧
    pt_tags pt !! "node" = Some "0" ∧ pt_tags pt !! "zone" = Some "DMA" ∧
    pt_tags pt !! "host" = Some "box".
Proof.
  destruct C2_sample_line as (_ & _ & _ & Hpt).
  eexists.
  edestruct (Hpt sample_world sample_settings sample_state sample_tags
               sample_entry) as (pt & Hbp & _ & Hn & Hz & Ho);
    [reflexivity | reflexivity | vm_compute; reflexivity |].
  exists pt. split; [vm_compute; reflexivity|]. split; [exact Hbp|].
  split; [exact Hn|]. split; [exact Hz|].
  rewrite Ho by done. reflexivity.
Defined.

(** C3.  In the batch that [updateInflux] hands to [Write], the point at
    position [i] belongs to the entry at position [i] and carries the time
    [Now w + i], where [Now w] is the time read at the start of the batch.
    Hence consecutive points are one nanosecond apart, times increase
    strictly along the batch, and no two points share a time. *)
Theorem C3_batch_timestamps w influx batch s (G : tagmap) bp :
  heap s !! GlobalTags influx = Some G →
  trace (updateInflux w influx batch s).2 = (trace s ++ [EvWrite bp])%list →
  length (bp_points bp) = length batch ∧
  (∀ i e, batch !! i = Some e →
     ∃ pt, bp_points bp !! i = Some pt ∧
       pt_time pt = Now w + Z.of_nat i ∧
       pt_fields pt = Pages e ∧
       pt_tags pt !! "node" = Some (Node e) ∧
       pt_tags pt !! "zone" = Some (Zone e)) ∧
  (∀ i p q, bp_points bp !! i = Some p → bp_points bp !! S i = Some q →
     pt_time q = pt_time p + 1) ∧
  (∀ i j p q, bp_points bp !! i = Some p → bp_points bp !! j = Some q →
     (i < j)%nat → pt_time p < pt_time q) ∧
  NoDup (pt_time <$> bp_points bp).
Proof.
  intros HG Htrace.
  destruct (updateInflux_written w influx batch s G bp HG Htrace)
    as (-> & _ & _).
  cbn [bp_points]. split; [apply length_imap|]. split.
  { intros i e Hi. exists (pointAt influx G (Now w) i e).
    rewrite imap_pointAt_lookup, Hi. cbn [fmap option_fmap option_map pointAt
      pt_time pt_fields pt_tags].
    repeat split; [apply entryTags_node | apply entryTags_zone]. }
  split.
  { intros i p q Hp Hq.
    apply imap_pointAt_time in Hp, Hq. lia. }
  split.
  { intros i j p q Hp Hq Hij.
    apply imap_pointAt_time in Hp, Hq. lia. }
  apply NoDup_alt. intros i j t Hi Hj.
  rewrite list_lookup_fmap in Hi, Hj.
  destruct (imap (pointAt influx G (Now w)) batch !! i) as [p|] eqn:Hp;
    [|done].
  destruct (imap (pointAt influx G (Now w)) batch !! j) as [q|] eqn:Hq;
    [|done].
  apply imap_pointAt_time in Hp, Hq.
  cbn in Hi, Hj. injection Hi as Hi. injection Hj as Hj. lia.
Qed.

Lemma C3_batch_timestamps_witness :
  length (bp_points sample_written) = 4%nat ∧
  pt_time <$> bp_points sample_written = [1000; 1001; 1002; 1003] ∧
  NoDup (pt_time <$> bp_points sample_written).
Proof.
  destruct (C3_batch_timestamps sample_world sample_settings sample_batch
              sample_state sample_tags sample_written)
    as (Hlen & _ & _ & _ & Hnd); [reflexivity | vm_compute; reflexivity |].
  split; [exact Hlen|]. split; [vm_compute; reflexivity | exact Hnd].
Defined.



(** C5.  Whatever the static tags hold when [updateInflux] starts, also a
    key named node or zone, every point written maps node and zone to the
    values of its own entry, and every other key to what the static tags
    hold. *)
Theorem C5_tag_precedence w influx batch s (G : tagmap) bp :
  heap s !! GlobalTags influx = Some G →
  trace (updateInflux w influx batch s).2 = (trace s ++ [EvWrite bp])%list →
  ∀ i e, batch !! i = Some e →
    ∃ pt, bp_points bp !! i = Some pt ∧
      pt_tags pt !! "node" = Some (Node e) ∧
      pt_tags pt !! "zone" = Some (Zone e) ∧
      ∀ k, k ≠ "node" → k ≠ "zone" → pt_tags pt !! k = G !! k.
Proof.
  intros HG Htrace i e Hi.
  destruct (updateInflux_written w influx batch s G bp HG Htrace)
    as (-> & _ & _).
  exists (pointAt influx G (Now w) i e). cbn [bp_points].
  rewrite imap_pointAt_lookup, Hi. cbn [pointAt pt_tags].
  split; [done|]. split; [apply entryTags_node|].
  split; [apply entryTags_zone|]. intros k. apply entryTags_other.
Qed.

Lemma C5_tag_precedence_witness :
  sample_tags !! "node" = Some "static" ∧
  ∃ pt, bp_points sample_written !! 3%nat = Some pt ∧
    pt_tags pt !! "node" = Some "1" ∧
    pt_tags pt !! "zone" = Some "Normal" ∧
    pt_tags pt !! "host" = Some "box".
Proof.
  split; [reflexivity|].
  edestruct (C5_tag_precedence sample_world sample_settings sample_batch
               sample_state sample_tags sample_written)
    as (pt & Hpt & Hn & Hz & Ho);
    [reflexivity | vm_compute; reflexivity | |].
  - instantiate (2 := 3%nat). vm_compute. reflexivity.
  - exists pt. split; [exact Hpt|]. split; [exact Hn|]. split; [exact Hz|].
    rewrite Ho by done. reflexivity.
Defined.

(** C6, as the claim states it, fails: after the sample batch the map of
    static tags, which held neither node nor zone, holds both. *)
Lemma C6_counterexample :
  let G := mapContents (GlobalTags sample_settings) (heap host_state) in
  let G' := mapContents (GlobalTags sample_settings)
              (heap (updateInflux sample_world sample_settings sample_batch
                       host_state).2) in
  G !! "node" = None ∧ G !! "zone" = None ∧
  G' !! "node" = Some "1" ∧ G' !! "zone" = Some "Normal" ∧ G' ≠ G.
Proof.
  vm_compute. repeat split; try reflexivity. discriminate.
Qed.

(** C6, amended.  [updateInflux] assigns node and zone into the map of
    static tags itself.  After a batch that reached [Write] the map holds
    what it held before, overridden by the node and zone of the last entry,
    and no other map of the store changes.  The map is therefore left as it
    was exactly when the batch is empty or the map already held the node
    and zone of the last entry, as it does in every cycle after the first
    over a file that stays the same.  Each point written holds the contents
    the map had when the point was created: the static tags as they were
    when the batch started, overridden by the node and zone of the point's
    own entry. *)
Theorem C6_static_tags_overwritten w influx batch s (G : tagmap) bp :
  heap s !! GlobalTags influx = Some G →
  trace (updateInflux w influx batch s).2 = (trace s ++ [EvWrite bp])%list →
  let s' := (updateInflux w influx batch s).2 in
  heap s' !! GlobalTags influx =
    Some (match last batch with
          | Some e => <["zone" := Zone e]> (<["node" := Node e]> G)
          | None => G
          end) ∧
  (∀ k, k ≠ "node" → k ≠ "zone" →
     mapContents (GlobalTags influx) (heap s') !! k = G !! k) ∧
  (∀ l, l ≠ GlobalTags influx → heap s' !! l = heap s !! l) ∧
  (∀ i e, batch !! i = Some e →
     ∃ pt, bp_points bp !! i = Some pt ∧
       pt_tags pt = <["zone" := Zone e]> (<["node" := Node e]> G)) ∧
  (heap s' !! GlobalTags influx = Some G ↔
     match last batch with
     | Some e => G !! "node" = Some (Node e) ∧ G !! "zone" = Some (Zone e)
     | None => True
     end).
Proof.
  intros HG Htrace s'. subst s'.
  destruct (updateInflux_written w influx batch s G bp HG Htrace)
    as (-> & Hheap & _).
  destruct (updateInflux_spec w influx batch s G HG)
    as (r & s' & Hrun & Hframe & _ & _).
  rewrite Hrun in Hheap |- *. cbn [snd] in *.
  split; [exact Hheap|]. split.
  { intros k Hn Hz. unfold mapContents. rewrite Hheap. cbn [default].
    destruct (last batch); [by apply entryTags_other | done]. }
  split; [exact Hframe|]. split.
  { intros i e Hi. exists (pointAt influx G (Now w) i e). cbn [bp_points].
    by rewrite imap_pointAt_lookup, Hi. }
  rewrite Hheap. destruct (last batch) as [e|]; [|done]. split.
  - intros [= Heq]. rewrite <- Heq at 1 2.
    split; [apply entryTags_node | apply entryTags_zone].
  - intros [Hn Hz]. f_equal. unfold entryTags.
    rewrite (insert_id G "node" (Node e) Hn). by apply insert_id.
Qed.

Lemma C6_static_tags_overwritten_witness :
  heap (updateInflux sample_world sample_settings sample_batch
          sample_state).2 !! GlobalTags sample_settings =
    Some (<["zone" := "Normal"]> (<["node" := "1"]> sample_tags)) ∧
  ∃ pt, bp_points sample_written !! 0%nat = Some pt ∧
        pt_tags pt = <["zone" := "DMA"]> (<["node" := "0"]> sample_tags).
Proof.
  destruct (C6_static_tags_overwritten sample_world sample_settings
              sample_batch sample_state sample_tags sample_written)
    as (Hheap & _ & _ & Hpts & _); [reflexivity | vm_compute; reflexivity |].
  split; [exact Hheap|].
  apply (Hpts 0%nat sample_entry). reflexivity.
Defined.

(** ** Properties of the dispatch loop *)

Lemma collectBatch_total lines : ∀ acc,
  (∃ batch, collectBatch lines acc = Ok batch) ∨
  (∃ e, collectBatch lines acc = Err e).
Proof.
  induction lines as [|line rest IH]; intros acc.
  - left. by exists acc.
  - cbn [collectBatch].
    destruct (decide (length (Fields line) = 15%nat)) as [Hlen|Hlen].
    + destruct (makeBuddyEntry_Ok line Hlen) as (e & -> & _).
      cbn [mbind result_bind]. apply IH.
    + rewrite (makeBuddyEntry_mismatch line Hlen). right. by eexists.
Qed.

Lemma processBuddyInfo_read w influx s data :
  ReadFile w buddyPath = inl data →
  processBuddyInfo w influx s =
    match collectBatch (ScanLines w data) [] with
    | Ok batch => updateInflux w influx batch s
    | Err e => (Err e, s)
    | Panic msg => (Panic msg, s)
    | Exit c => (Exit c, s)
    end.
Proof.
  intros Hread. unfold processBuddyInfo, slurpLines. rewrite Hread.
  unfold mbind, Prog_bind, lift.
  by destruct (collectBatch (ScanLines w data) []).
Qed.

Lemma processBuddyInfo_unreadable w influx s err :
  ReadFile w buddyPath = inr err →
  processBuddyInfo w influx s =
    (Exit 1, {| heap := heap s; trace := trace s ++ [EvLogFatal err] |}).
Proof.
  intros Hread. unfold processBuddyInfo, slurpLines. by rewrite Hread.
Qed.

(** C7, as the claim states it, fails: when the file cannot be read the
    process exits with status 1 during the first cycle; it neither sleeps
    nor starts the cycle that would follow. *)
Lemma C7_counterexample :
  ReadFile unreadable_world buddyPath =
    inr "open proc_buddyinfo.txt: no such file or directory" ∧
  run [unreadable_world; sample_world] sample_settings sample_state =
    (Exit 1,
     {| heap := heap sample_state;
        trace := [EvLogFatal
                    "open proc_buddyinfo.txt: no such file or directory"] |}) ∧
  ¬ ∃ s1, cycle unreadable_world sample_settings sample_state = (Ok tt, s1).
Proof.
  split; [reflexivity|]. split; [reflexivity|].
  intros [s1 Hs1]. vm_compute in Hs1. discriminate.
Qed.

(** C7, amended.  When reading the source file fails, [processBuddyInfo]
    reports the error through [log.Fatal] and the process exits with
    status 1: the store is left as it was, nothing is written, the loop
    does not sleep and no later cycle runs. *)
Theorem C7_read_failure_fatal w ws influx s err :
  ReadFile w buddyPath = inr err →
  let s' := {| heap := heap s; trace := trace s ++ [EvLogFatal err] |} in
  processBuddyInfo w influx s = (Exit 1, s') ∧
  cycle w influx s = (Exit 1, s') ∧
  run (w :: ws) influx s = (Exit 1, s').
Proof.
  intros Hread s'. subst s'.
  pose proof (processBuddyInfo_unreadable w influx s err Hread) as Hp.
  assert (cycle w influx s =
          (Exit 1, {| heap := heap s; trace := trace s ++ [EvLogFatal err] |}))
    as Hc.
  { unfold cycle. by rewrite Hp. }
  split; [done|]. split; [done|].
  cbn [run]. unfold mbind, Prog_bind. by rewrite Hc.
Qed.

Lemma C7_read_failure_fatal_witness :
  run [unreadable_world; sample_world] sample_settings sample_state =
    (Exit 1,
     {| heap := heap sample_state;
        trace := [EvLogFatal
                    "open proc_buddyinfo.txt: no such file or directory"] |}).
Proof.
  destruct (C7_read_failure_fatal unreadable_world [sample_world]
              sample_settings sample_state
              "open proc_buddyinfo.txt: no such file or directory" eq_refl)
    as (_ & _ & Hrun).
  exact Hrun.
Defined.

(** C8.  In a cycle whose file was read, [processBuddyInfo] returns nil or
    an error and neither panics nor exits.  A parse error and an error of
    [Write] are returned as they are.  On an error the loop prints it after
    the word ERROR, sleeps the configured interval and goes on with the
    next cycle, the static tags still being a map of the store. *)
Theorem C8_errors_not_fatal w ws influx s (G : tagmap) data :
  heap s !! GlobalTags influx = Some G →
  ReadFile w buddyPath = inl data →
  ∃ r s1, processBuddyInfo w influx s = (r, s1) ∧
    (r = Ok tt ∨ ∃ e, r = Err e) ∧
    (∀ e, collectBatch (ScanLines w data) [] = Err e → r = Err e ∧ s1 = s) ∧
    (∀ bp e, trace s1 = (trace s ++ [EvWrite bp])%list →
       Write w bp = Some e → r = Err e) ∧
    let s2 :=
      {| heap := heap s1;
         trace := trace s1
                  ++ match r with
                     | Err e => [EvPrintln ("ERROR: " +:+ e)]
                     | _ => []
                     end
                  ++ [EvSleep (Interval influx)] |} in
    cycle w influx s = (Ok tt, s2) ∧
    run (w :: ws) influx s = run ws influx s2 ∧
    is_Some (heap s2 !! GlobalTags influx).
Proof.
  intros HG Hread.
  pose proof (processBuddyInfo_read w influx s data Hread) as Hp.
  assert (∃ r s1, processBuddyInfo w influx s = (r, s1) ∧
            (r = Ok tt ∨ ∃ e, r = Err e) ∧
            (∀ e, collectBatch (ScanLines w data) [] = Err e →
                  r = Err e ∧ s1 = s) ∧
            (∀ bp e, trace s1 = (trace s ++ [EvWrite bp])%list →
                     Write w bp = Some e → r = Err e) ∧
            is_Some (heap s1 !! GlobalTags influx))
    as (r & s1 & Hrun & Hr & Hparse & Hwrite & Hmap).
  { destruct (collectBatch_total (ScanLines w data) [])
      as [[batch Hb]|[e Hb]]; rewrite Hb in Hp.
    - destruct (updateInflux_spec w influx batch s G HG)
        as (r & s1 & Hrun & _ & Hmap & Hcases).
      exists r, s1. rewrite Hp. split; [done|]. split.
      { destruct Hcases as [(bp & _ & _ & _ & ->)|[_ [e ->]]].
        - destruct (Write w bp); eauto.
        - eauto. }
      split; [by rewrite Hb|]. split; [|done].
      intros bp e Htr HW.
      assert (trace (updateInflux w influx batch s).2 =
              (trace s ++ [EvWrite bp])%list) as Htr'.
      { by rewrite Hrun. }
      destruct (updateInflux_written w influx batch s G bp HG Htr')
        as (_ & _ & Hres).
      rewrite Hrun, HW in Hres. exact Hres.
    - exists (Err e), s. split; [done|]. split; [eauto|].
      split; [intros e' He'; rewrite Hb in He'; by injection He' as <-|].
      split; [|by eexists].
      intros bp e' Htr _. apply (f_equal length) in Htr.
      rewrite length_app in Htr. cbn [length] in Htr. lia. }
  exists r, s1. split; [done|]. split; [done|]. split; [done|].
  split; [done|]. cbn zeta.
  assert (cycle w influx s =
          (Ok tt,
           {| heap := heap s1;
              trace := trace s1
                       ++ match r with
                          | Err e => [EvPrintln ("ERROR: " +:+ e)]
                          | _ => []
                          end
                       ++ [EvSleep (Interval influx)] |})) as Hc.
  { unfold cycle. rewrite Hrun.
    destruct Hr as [->|[e ->]].
    - reflexivity.
    - unfold mbind, Prog_bind, fmt_Println, time_Sleep, emit.
      cbn [heap trace]. by rewrite <- app_assoc. }
  split; [done|]. split; [|done].
  cbn [run]. unfold mbind, Prog_bind. by rewrite Hc.
Qed.

Lemma C8_errors_not_fatal_witness :
  ∃ s2,
    cycle refusing_world sample_settings sample_state = (Ok tt, s2) ∧
    drop 1 (trace s2) =
      [EvPrintln "ERROR: connection refused"; EvSleep 10000000000] ∧
    run [refusing_world; world_of [short_line]] sample_settings sample_state =
      run [world_of [short_line]] sample_settings s2.
Proof.
  destruct (C8_errors_not_fatal refusing_world [world_of [short_line]]
              sample_settings sample_state sample_tags "" eq_refl eq_refl)
    as (r & s1 & Hrun & _ & _ & _ & Hc & Hnext & _).
  eexists. split; [exact Hc|]. split; [|exact Hnext].
  vm_compute in Hrun. injection Hrun as <- <-. vm_compute. reflexivity.
Defined.

(** C9.  The tags and fields of a point depend only on its entry and on
    what the static tags hold when the batch starts.  Two runs that start
    from the same static tags and hold the same entry, at whatever
    positions, times, stores and answers of the client, write points for it
    with identical tags and identical fields. *)
Theorem C9_encoding_deterministic w1 w2 influx1 influx2 batch1 batch2 s1 s2
    (G : tagmap) bp1 bp2 i j e :
  heap s1 !! GlobalTags influx1 = Some G →
  heap s2 !! GlobalTags influx2 = Some G →
  trace (updateInflux w1 influx1 batch1 s1).2
    = (trace s1 ++ [EvWrite bp1])%list →
  trace (updateInflux w2 influx2 batch2 s2).2
    = (trace s2 ++ [EvWrite bp2])%list →
  batch1 !! i = Some e → batch2 !! j = Some e →
  ∃ p q, bp_points bp1 !! i = Some p ∧ bp_points bp2 !! j = Some q ∧
    pt_tags p = pt_tags q ∧ pt_fields p = pt_fields q.
Proof.
  intros HG1 HG2 Ht1 Ht2 Hi Hj.
  destruct (updateInflux_written w1 influx1 batch1 s1 G bp1 HG1 Ht1)
    as (-> & _ & _).
  destruct (updateInflux_written w2 influx2 batch2 s2 G bp2 HG2 Ht2)
    as (-> & _ & _).
  exists (pointAt influx1 G (Now w1) i e), (pointAt influx2 G (Now w2) j e).
  cbn [bp_points]. rewrite !imap_pointAt_lookup, Hi, Hj. by repeat split.
Qed.

Lemma C9_encoding_deterministic_witness :
  ∃ bp2 p q,
    trace (updateInflux refusing_world sample_settings (reverse sample_batch)
             sample_state).2 = [EvWrite bp2] ∧
    bp_points sample_written !! 0%nat = Some p ∧
    bp_points bp2 !! 3%nat = Some q ∧
    pt_tags p = pt_tags q ∧ pt_fields p = pt_fields q.
Proof.
  eexists.
  edestruct (C9_encoding_deterministic sample_world refusing_world
               sample_settings sample_settings sample_batch
               (reverse sample_batch) sample_state sample_state sample_tags)
    with (bp1 := sample_written) (i := 0%nat) (j := 3%nat)
         (e := sample_entry)
    as (p & q & Hp & Hq & Htags & Hfields);
    [reflexivity | reflexivity | vm_compute; reflexivity
    | vm_compute; reflexivity | reflexivity | reflexivity |].
  exists p, q. split; [vm_compute; reflexivity|]. by repeat split.
Defined.

(** ** Further properties of [strings.Fields] and the parser *)


Lemma append_cons_s c (a b : string) : String c a +:+ b = String c (a +:+ b).
Proof. reflexivity. Qed.

Lemma append_nil_l_s (a : string) : EmptyString +:+ a = a.
Proof. reflexivity. Qed.

Lemma append_nil_r_s (a : string) : a +:+ EmptyString = a.
Proof.
  induction a as [|x a IH]; [done|].
  change (String x (a +:+ EmptyString) = String x a). by f_equal.
Qed.

Lemma fieldsLoop_sp s sp sp' tok :
  fieldsLoop s 0 sp tok = fieldsLoop s 0 sp' tok.
Proof. by destruct s. Qed.

Lemma asciiSpace_ascii c : asciiSpace c = true → byte_val c < 0x80.
Proof.
  unfold asciiSpace. intros H.
  repeat (apply orb_prop in H as [H|H]); apply Z.eqb_eq in H; lia.
Qed.

Lemma IsSpace_ascii c : byte_val c < 0x80 → IsSpace (byte_val c) = asciiSpace c.
Proof.
  intros Hc. unfold IsSpace, asciiSpace.
  destruct (Z.leb_spec (byte_val c) 0xFF); [|lia].
  replace (byte_val c =? 0x85) with false by (symmetry; apply Z.eqb_neq; lia).
  replace (byte_val c =? 0xA0) with false by (symmetry; apply Z.eqb_neq; lia).
  by rewrite !orb_false_r.
Qed.

(** One turn of the loop at a byte of ASCII. *)
Lemma fieldsLoop_ascii c rest sp tok :
  byte_val c < 0x80 →
  fieldsLoop (String c rest) 0 sp tok =
    if asciiSpace c then (flush tok ++ fieldsLoop rest 0 true EmptyString)%list
    else fieldsLoop rest 0 false (tok +:+ String c EmptyString).
Proof.
  intros Hc. cbn [fieldsLoop]. unfold DecodeRuneInString.
  destruct (Z.ltb_spec (byte_val c) 0x80); [|lia].
  cbn [Nat.pred]. rewrite (IsSpace_ascii c Hc). by destruct (asciiSpace c).
Qed.


Lemma fieldsLoop_spaces b : ∀ s sp,
  allBytes asciiSpace b = true →
  fieldsLoop (b +:+ s) 0 sp EmptyString = fieldsLoop s 0 sp EmptyString.
Proof.
  induction b as [|c b IH]; intros s sp Hb; [done|].
  cbn [allBytes] in Hb. apply andb_prop in Hb as [Hc Hb].
  rewrite ?append_cons_s, ?append_nil_l_s.
  rewrite (fieldsLoop_ascii c _ sp EmptyString (asciiSpace_ascii c Hc)), Hc.
  cbn [flush app]. rewrite (IH s true Hb). apply fieldsLoop_sp.
Qed.










Lemma Fields_spaces line : allBytes asciiSpace line = true → Fields line = [].
Proof.
  intros Hb. unfold Fields. rewrite <- (append_nil_r_s line).
  by rewrite (fieldsLoop_spaces line EmptyString true Hb).
Qed.

Lemma processBuddyInfo_some_bad w influx s data line :
  ReadFile w buddyPath = inl data →
  line ∈ ScanLines w data → length (Fields line) ≠ 15%nat →
  ∃ e, processBuddyInfo w influx s = (Err e, s).
Proof.
  intros Hread Hin Hbad.
  destruct (first_bad_line _ _ Hin Hbad)
    as (good & bad & rest & Hsplit & Hgood & Hb).
  eexists.
  by apply (processBuddyInfo_bad_line w influx s data good bad rest).
Qed.

(** X3.  A line that is empty or holds only white space splits into no
    token: the parser reports 0 fields, and one such line anywhere in the
    file makes the cycle return an error with nothing written. *)
Theorem X3_blank_line (line : string) :
  allBytes asciiSpace line = true →
  Fields line = [] ∧
  makeBuddyEntry line =
    Err ("found 0 fields in proc_buddyinfo.txt (expected 15) in " +:+ line) ∧
  ∀ w influx s data,
    ReadFile w buddyPath = inl data → line ∈ ScanLines w data →
    ∃ e, processBuddyInfo w influx s = (Err e, s).
Proof.
  intros Hb. pose proof (Fields_spaces line Hb) as HF.
  assert (length (Fields line) ≠ 15%nat) as Hbad by (by rewrite HF).
  split; [done|]. split.
  - rewrite (makeBuddyEntry_mismatch line Hbad), HF. reflexivity.
  - intros w influx s data Hread Hin.
    by apply (processBuddyInfo_some_bad w influx s data line).
Qed.

Lemma X3_blank_line_witness :
  ∃ e, processBuddyInfo (world_of [sample_line; ""]) sample_settings
         sample_state = (Err e, sample_state).
Proof.
  destruct (X3_blank_line "" eq_refl) as (_ & _ & Hcycle).
  apply (Hcycle (world_of [sample_line; ""]) sample_settings sample_state "");
    [reflexivity|]. cbn. set_solver.
Defined.



(** ** Further properties of the batch assembly and the loop *)

Lemma collectBatch_good lines : ∀ acc,
  Forall (λ l, length (Fields l) = 15%nat) lines →
  ∃ batch, collectBatch lines acc = Ok (acc ++ batch)%list ∧
    Forall2 (λ l e, makeBuddyEntry l = Ok e) lines batch.
Proof.
  induction lines as [|line rest IH]; intros acc Hgood.
  - exists []. rewrite app_nil_r. split; [done | constructor].
  - inversion Hgood as [|? ? Hl Hrest]; subst.
    destruct (makeBuddyEntry_Ok line Hl) as (e & He & _).
    destruct (IH (acc ++ [e])%list Hrest) as (batch & Hb & Hall).
    exists (e :: batch). cbn [collectBatch]. rewrite He.
    cbn [mbind result_bind]. rewrite Hb, <- app_assoc.
    split; [done | by constructor].
Qed.

Lemma sameOffNodeZone_refl (G : tagmap) : sameOffNodeZone G G.
Proof. by intros k _ _. Qed.

Lemma sameOffNodeZone_entryTags e (G G' : tagmap) :
  sameOffNodeZone G G' → sameOffNodeZone G (entryTags e G').
Proof. intros H k Hn Hz. rewrite entryTags_other by done. by apply H. Qed.

Lemma entryTags_sameOff e (G G' : tagmap) :
  sameOffNodeZone G G' → entryTags e G' = entryTags e G.
Proof.
  intros H. apply map_eq. intros k.
  destruct (decide (k = "node")) as [->|Hn]; [by rewrite !entryTags_node|].
  destruct (decide (k = "zone")) as [->|Hz]; [by rewrite !entryTags_zone|].
  rewrite !entryTags_other by done. symmetry. by apply H.
Qed.

Lemma imap_pointAt_sameOff influx (G G' : tagmap) t0 batch :
  sameOffNodeZone G G' →
  imap (pointAt influx G' t0) batch = imap (pointAt influx G t0) batch.
Proof.
  intros H. apply imap_ext. intros i e _. unfold pointAt.
  by rewrite (entryTags_sameOff e G G' H).
Qed.

(** [updateInflux] when the static tags hold [G'], which is [G] up to node
    and zone: the points are those of [G], and the map stays so. *)
Lemma updateInflux_drift w influx batch s (G G' : tagmap) :
  heap s !! GlobalTags influx = Some G' → sameOffNodeZone G G' →
  ∃ r s' G2, updateInflux w influx batch s = (r, s') ∧
    heap s' !! GlobalTags influx = Some G2 ∧ sameOffNodeZone G G2 ∧
    ((trace s' = (trace s ++
        [EvWrite {| bp_database := Database influx; bp_precision := "ns";
                    bp_points := imap (pointAt influx G (Now w)) batch |}])%list
      ∧ (r = Ok tt ∨ ∃ err, r = Err err))
     ∨ (trace s' = trace s ∧ ∃ err, r = Err err)).
Proof.
  intros HG Hsame. unfold updateInflux.
  destruct (NewHTTPClient w (URL influx) (User influx) (Password influx))
    as [err|].
  { exists (Err err), s, G'. unfold lift. repeat split; eauto. }
  destruct (NewBatchPoints w (Database influx) "ns") as [err|].
  { exists (Err err), s, G'. unfold lift. repeat split; eauto. }
  destruct (addPoints_spec w influx batch (Now w) [] s G' HG)
    as (r & s1 & Hrun & Htr & _ & Hr).
  unfold mbind at 1. unfold Prog_bind at 1. rewrite Hrun.
  destruct r as [pts|err|msg|c]; [| |done|done].
  - destruct Hr as [-> Hheap]. cbn [app].
    rewrite (imap_pointAt_sameOff influx G G' (Now w) batch Hsame).
    set (bp := {| bp_database := Database influx; bp_precision := "ns";
                  bp_points := imap (pointAt influx G (Now w)) batch |}).
    unfold mbind, Prog_bind, emit, lift, mret, Prog_ret.
    destruct (Write w bp) as [err|] eqn:HW;
      (eexists _, _, _; split; [reflexivity|]; cbn [heap trace];
       split; [exact Hheap|]; split;
       [destruct (last batch);
          [by apply sameOffNodeZone_entryTags | done]|];
       left; rewrite Htr; split; [done|]; eauto).
  - destruct Hr as (i & e & _ & _ & Hheap).
    exists (Err err), s1, (entryTags e G'). split; [done|].
    split; [done|]. split; [by apply sameOffNodeZone_entryTags|].
    right. eauto.
Qed.

Lemma writes_app tr1 tr2 : writes (tr1 ++ tr2) = (writes tr1 ++ writes tr2)%list.
Proof. apply omap_app. Qed.

Lemma sleeps_app tr1 tr2 : sleeps (tr1 ++ tr2) = (sleeps tr1 ++ sleeps tr2)%list.
Proof. apply omap_app. Qed.

(** One cycle whose file can be read, from static tags that are [G] up to
    node and zone. *)
Lemma cycle_spec w influx s (G G' : tagmap) :
  heap s !! GlobalTags influx = Some G' → sameOffNodeZone G G' →
  readable w →
  ∃ s2 tr G2, cycle w influx s = (Ok tt, s2) ∧
    trace s2 = (trace s ++ tr)%list ∧
    heap s2 !! GlobalTags influx = Some G2 ∧ sameOffNodeZone G G2 ∧
    sleeps tr = [Interval influx] ∧
    (writes tr = [] ∨
     ∃ batch, writes tr =
       [{| bp_database := Database influx; bp_precision := "ns";
           bp_points := imap (pointAt influx G (Now w)) batch |}]).
Proof.
  intros HG Hsame [data Hread].
  pose proof (processBuddyInfo_read w influx s data Hread) as Hp.
  unfold cycle.
  destruct (collectBatch_total (ScanLines w data) [])
    as [[batch Hb]|[e Hb]]; rewrite Hb in Hp; rewrite Hp.
  - destruct (updateInflux_drift w influx batch s G G' HG Hsame)
      as (r & s1 & G2 & -> & Hheap & Hsame2 & Hcases).
    destruct Hcases as [[Htr [->|[err ->]]]|[Htr [err ->]]].
    + eexists _, _, G2. unfold time_Sleep, emit. split; [reflexivity|].
      cbn [heap trace]. rewrite Htr, <- app_assoc.
      split; [reflexivity|]. split; [done|]. split; [done|].
      split; [reflexivity|]. right. by exists batch.
    + eexists _, _, G2.
      unfold mbind, Prog_bind, fmt_Println, time_Sleep, emit.
      split; [reflexivity|]. cbn [heap trace]. rewrite Htr, <- !app_assoc.
      split; [reflexivity|]. split; [done|]. split; [done|].
      split; [reflexivity|]. right. by exists batch.
    + eexists _, _, G2.
      unfold mbind, Prog_bind, fmt_Println, time_Sleep, emit.
      split; [reflexivity|]. cbn [heap trace]. rewrite Htr, <- !app_assoc.
      split; [reflexivity|]. split; [done|]. split; [done|].
      split; [reflexivity|]. by left.
  - eexists _, _, G'.
    unfold mbind, Prog_bind, fmt_Println, time_Sleep, emit.
    split; [reflexivity|]. cbn [heap trace]. rewrite <- !app_assoc.
    split; [reflexivity|]. split; [done|]. split; [done|].
    split; [reflexivity|]. by left.
Qed.

Lemma cycle_unreadable w influx s err :
  ReadFile w buddyPath = inr err →
  cycle w influx s =
    (Exit 1, {| heap := heap s; trace := trace s ++ [EvLogFatal err] |}).
Proof.
  intros Hread. unfold cycle.
  by rewrite (processBuddyInfo_unreadable w influx s err Hread).
Qed.

Lemma readable_dec w : {readable w} + {∃ err, ReadFile w buddyPath = inr err}.
Proof.
  unfold readable. destruct (ReadFile w buddyPath) as [data|err]; eauto.
Qed.

(** The loop over any number of cycles. *)
Lemma run_spec ws influx : ∀ s (G G' : tagmap),
  heap s !! GlobalTags influx = Some G' → sameOffNodeZone G G' →
  ∃ r s' tr, run ws influx s = (r, s') ∧
    trace s' = (trace s ++ tr)%list ∧
    (∃ G2, heap s' !! GlobalTags influx = Some G2 ∧ sameOffNodeZone G G2) ∧
    (∀ bp pt, bp ∈ writes tr → pt ∈ bp_points bp →
       bp_database bp = Database influx ∧ bp_precision bp = "ns" ∧
       ∃ e, pt_name pt = Measurement influx ∧ pt_tags pt = entryTags e G ∧
            pt_fields pt = Pages e) ∧
    ((r = Ok tt ∧ Forall readable ws ∧
      sleeps tr = replicate (length ws) (Interval influx))
     ∨ (r = Exit 1 ∧
        ∃ ws1 w ws2 err, ws = (ws1 ++ w :: ws2)%list ∧ Forall readable ws1 ∧
          ReadFile w buddyPath = inr err ∧
          sleeps tr = replicate (length ws1) (Interval influx) ∧
          (length (writes tr) ≤ length ws1)%nat ∧
          last tr = Some (EvLogFatal err))).
Proof.
  induction ws as [|w ws IH]; intros s G G' HG Hsame.
  - exists (Ok tt), s, []. cbn [run]. rewrite app_nil_r.
    split; [done|]. split; [done|]. split; [eauto|].
    split; [intros bp pt Hbp; by apply elem_of_nil in Hbp|].
    left. by repeat split.
  - cbn [run]. unfold mbind, Prog_bind.
    destruct (readable_dec w) as [Hr|[err Herr]].
    + destruct (cycle_spec w influx s G G' HG Hsame Hr)
        as (s2 & tr1 & G2 & -> & Htr1 & HG2 & Hsame2 & Hsl & Hwr).
      destruct (IH s2 G G2 HG2 Hsame2)
        as (r & s' & tr2 & Hrun & Htr2 & Hheap & Hpts & Hstat).
      exists r, s', (tr1 ++ tr2)%list. split; [done|].
      split; [by rewrite Htr2, Htr1, app_assoc|]. split; [done|].
      split.
      { intros bp pt Hbp Hpt. rewrite writes_app in Hbp.
        apply elem_of_app in Hbp as [Hbp|Hbp]; [|by apply (Hpts bp pt)].
        destruct Hwr as [Hwr|[batch Hwr]]; rewrite Hwr in Hbp.
        - by apply elem_of_nil in Hbp.
        - apply list_elem_of_singleton in Hbp as ->. cbn [bp_points] in Hpt.
          apply elem_of_lookup_imap_1 in Hpt as (i & e & -> & _).
          repeat split. by exists e. }
      rewrite sleeps_app, Hsl.
      destruct Hstat as [(-> & Hall & Hs)|(-> & ws1 & w' & ws2 & err & -> &
                                            Hall & Hbad & Hs & Hw & Hlast)].
      * left. split; [done|]. split; [by constructor|]. by rewrite Hs.
      * right. split; [done|]. exists (w :: ws1), w', ws2, err.
        split; [done|]. split; [by constructor|]. split; [done|].
        split; [by rewrite Hs|]. split.
        { rewrite writes_app, length_app. cbn [length].
          destruct Hwr as [->|[batch ->]]; cbn [length]; lia. }
        rewrite last_app, Hlast. done.
    + rewrite (cycle_unreadable w influx s err Herr).
      eexists (Exit 1), _, [EvLogFatal err]. split; [reflexivity|].
      split; [reflexivity|]. cbn [heap]. split; [eauto|].
      split; [intros bp pt Hbp; by apply elem_of_nil in Hbp|].
      right. split; [done|]. exists [], w, ws, err.
      by repeat split.
Qed.

Lemma addPoints_Ok_all w influx batch : ∀ t bp s (G : tagmap) pts s',
  heap s !! GlobalTags influx = Some G →
  addPoints w influx batch t bp s = (Ok pts, s') →
  ∀ i e, batch !! i = Some e →
    NewPoint_err w (Measurement influx) (entryTags e G) (Pages e)
      (t + Z.of_nat i) = None.
Proof.
  induction batch as [|x rest IH]; intros t bp s G pts s' HG Hrun i e Hi.
  - by rewrite lookup_nil in Hi.
  - rewrite (addPoints_cons w influx x rest t bp s G HG) in Hrun.
    cbn zeta in Hrun.
    destruct (NewPoint_err w (Measurement influx) (entryTags x G) (Pages x) t)
      as [err|] eqn:Hnp; [discriminate|].
    destruct i as [|i].
    + injection Hi as <-. by rewrite Z.add_0_r.
    + cbn in Hi.
      pose proof (IH _ _ _ (entryTags x G) _ _ (lookup_insert_eq _ _ _) Hrun
                    i e Hi) as Hnone.
      rewrite entryTags_absorb in Hnone.
      by replace (t + Z.of_nat (S i)) with (t + 1 + Z.of_nat i) by lia.
Qed.

(** X5.  A cycle over a file in which every line has 15 tokens, with a
    client that accepts the calls before [Write], writes one batch: a point
    for each line, in the order of the file, with the fields of the line's
    entry, the static tags overridden by the line's node and zone, and the
    time of the batch plus the line's position; the cycle returns what
    [Write] returns. *)
Theorem X5_cycle_writes_lines w influx s (G : tagmap) data :
  heap s !! GlobalTags influx = Some G →
  ReadFile w buddyPath = inl data →
  Forall (λ l, length (Fields l) = 15%nat) (ScanLines w data) →
  NewHTTPClient w (URL influx) (User influx) (Password influx) = None →
  NewBatchPoints w (Database influx) "ns" = None →
  (∀ name tags fields t, NewPoint_err w name tags fields t = None) →
  ∃ bp s',
    processBuddyInfo w influx s =
      (match Write w bp with Some err => Err err | None => Ok tt end, s') ∧
    trace s' = (trace s ++ [EvWrite bp])%list ∧
    bp_database bp = Database influx ∧ bp_precision bp = "ns" ∧
    length (bp_points bp) = length (ScanLines w data) ∧
    ∀ i line, ScanLines w data !! i = Some line →
      ∃ e pt, makeBuddyEntry line = Ok e ∧ bp_points bp !! i = Some pt ∧
        pt_name pt = Measurement influx ∧
        pt_time pt = Now w + Z.of_nat i ∧
        pt_fields pt = Pages e ∧
        pt_tags pt = <["zone" := Zone e]> (<["node" := Node e]> G).
Proof.
  intros HG Hread Hgood Hc Hb Hp.
  destruct (collectBatch_good (ScanLines w data) [] Hgood)
    as (batch & Hbatch & Hall).
  rewrite app_nil_l in Hbatch.
  pose proof (processBuddyInfo_read w influx s data Hread) as Hproc.
  rewrite Hbatch in Hproc.
  destruct (updateInflux_writes w influx batch s G HG Hc Hb Hp) as [bp Htr].
  destruct (updateInflux_written w influx batch s G bp HG Htr)
    as (Hbp & _ & Hres).
  exists bp, (updateInflux w influx batch s).2.
  rewrite Hproc, <- Hres. split; [by destruct (updateInflux w influx batch s)|].
  split; [done|]. subst bp. cbn [bp_database bp_precision bp_points].
  split; [done|]. split; [done|]. split.
  { rewrite length_imap. symmetry. by apply (Forall2_length _ _ _ Hall). }
  intros i line Hi.
  destruct (Forall2_lookup_l _ _ _ _ _ Hall Hi) as (e & He & Hmk).
  exists e, (pointAt influx G (Now w) i e).
  rewrite imap_pointAt_lookup, He. by repeat split.
Qed.

Lemma X5_cycle_writes_lines_witness :
  ∃ bp s',
    processBuddyInfo sample_world sample_settings sample_state = (Ok tt, s') ∧
    trace s' = [EvWrite bp] ∧ length (bp_points bp) = 4%nat.
Proof.
  destruct (X5_cycle_writes_lines sample_world sample_settings sample_state
              sample_tags "")
    as (bp & s' & Hrun & Htr & _ & _ & Hlen & _);
    [reflexivity | reflexivity | | reflexivity | reflexivity | done |].
  - cbn. repeat constructor.
  - exists bp, s'. split; [exact Hrun|]. split; [exact Htr | exact Hlen].
Defined.

(** X6.  An empty file is no error: when the client can be created the
    cycle hands [Write] a batch without points and returns what [Write]
    returns; the store stays as it was, and this holds even for a nil map
    of static tags. *)
Theorem X6_empty_file w influx s data :
  ReadFile w buddyPath = inl data → ScanLines w data = [] →
  NewHTTPClient w (URL influx) (User influx) (Password influx) = None →
  NewBatchPoints w (Database influx) "ns" = None →
  let bp := {| bp_database := Database influx; bp_precision := "ns";
               bp_points := [] |} in
  processBuddyInfo w influx s =
    (match Write w bp with Some err => Err err | None => Ok tt end,
     {| heap := heap s; trace := trace s ++ [EvWrite bp] |}).
Proof.
  intros Hread Hscan Hc Hb bp.
  rewrite (processBuddyInfo_read w influx s data Hread), Hscan.
  cbn [collectBatch]. unfold updateInflux. rewrite Hc, Hb.
  cbn [addPoints]. unfold mbind, Prog_bind, mret, Prog_ret, emit, lift.
  fold bp. by destruct (Write w bp).
Qed.

Lemma X6_empty_file_witness :
  processBuddyInfo (world_of []) sample_settings
    {| heap := ∅; trace := [] |} =
    (Ok tt,
     {| heap := ∅;
        trace := [EvWrite {| bp_database := "buddyinfo";
                             bp_precision := "ns"; bp_points := [] |}] |}).
Proof.
  exact (X6_empty_file (world_of []) sample_settings
           {| heap := ∅; trace := [] |} "" eq_refl eq_refl eq_refl eq_refl).
Defined.

(** X7.  [updateInflux] sends a whole batch or nothing.  It calls [Write]
    at most once, with as many points as there are entries; otherwise it
    returns an error and the trace is as before.  When [NewPoint] refuses
    the point of some entry, nothing is written although the points before
    it had been created. *)
Theorem X7_no_partial_batch w influx batch s (G : tagmap) :
  heap s !! GlobalTags influx = Some G →
  ∃ r s', updateInflux w influx batch s = (r, s') ∧
    ((trace s' = trace s ∧ ∃ err, r = Err err) ∨
     (∃ bp, trace s' = (trace s ++ [EvWrite bp])%list ∧
        length (bp_points bp) = length batch ∧
        r = match Write w bp with Some err => Err err | None => Ok tt end)) ∧
    (∀ i e err, batch !! i = Some e →
       NewPoint_err w (Measurement influx) (entryTags e G) (Pages e)
         (Now w + Z.of_nat i) = Some err →
       trace s' = trace s ∧ ∃ err', r = Err err').
Proof.
  intros HG.
  destruct (updateInflux_spec w influx batch s G HG)
    as (r & s' & Hrun & _ & _ & Hcases).
  exists r, s'. split; [done|]. split.
  { destruct Hcases as [(bp & Htr & -> & _ & Hr)|Hno]; [right|by left].
    eexists. split; [exact Htr|]. cbn [bp_points].
    split; [apply length_imap | exact Hr]. }
  intros i e err Hi Hfail.
  destruct Hcases as [(bp & Htr & _ & _ & _)|Hno]; [|done].
  exfalso. revert Hrun Htr. unfold updateInflux.
  destruct (NewHTTPClient w (URL influx) (User influx) (Password influx)).
  { unfold lift. intros [= <- <-] Htr. apply (f_equal length) in Htr.
    rewrite length_app in Htr. cbn in Htr. lia. }
  destruct (NewBatchPoints w (Database influx) "ns").
  { unfold lift. intros [= <- <-] Htr. apply (f_equal length) in Htr.
    rewrite length_app in Htr. cbn in Htr. lia. }
  unfold mbind at 1. unfold Prog_bind at 1.
  destruct (addPoints w influx batch (Now w) [] s) as [ra s1] eqn:Hadd.
  destruct ra as [pts|err'|msg|c].
  - pose proof (addPoints_Ok_all w influx batch (Now w) [] s G pts s1 HG Hadd
                  i e Hi) as Hnone.
    by rewrite Hnone in Hfail.
  - destruct (addPoints_spec w influx batch (Now w) [] s G HG)
      as (r2 & s2 & Hrun2 & Htr2 & _).
    rewrite Hadd in Hrun2. injection Hrun2 as <- <-.
    intros [= <- <-] Htr. rewrite Htr2 in Htr.
    apply (f_equal length) in Htr. rewrite length_app in Htr. cbn in Htr. lia.
  - intros [= <- <-]. destruct (addPoints_spec w influx batch (Now w) [] s G HG)
      as (r2 & s2 & Hrun2 & _ & _ & Hr2).
    rewrite Hadd in Hrun2. injection Hrun2 as <- <-. done.
  - intros [= <- <-]. destruct (addPoints_spec w influx batch (Now w) [] s G HG)
      as (r2 & s2 & Hrun2 & _ & _ & Hr2).
    rewrite Hadd in Hrun2. injection Hrun2 as <- <-. done.
Qed.

Lemma X7_no_partial_batch_witness :
  ∃ r s', updateInflux picky_world sample_settings sample_batch sample_state
          = (r, s') ∧
    trace s' = [] ∧ ∃ err, r = Err err.
Proof.
  destruct (X7_no_partial_batch picky_world sample_settings sample_batch
              sample_state sample_tags eq_refl)
    as (r & s' & Hrun & _ & Hfail).
  exists r, s'. split; [exact Hrun|].
  assert (∃ e, sample_batch !! 2%nat = Some e) as [e He]
    by (eexists; reflexivity).
  apply (Hfail 2%nat e "time outside range" He). reflexivity.
Defined.

(** X8.  The loop stops only for a file it cannot read.  From a store in
    which the static tags are a map, running any number of cycles never
    panics and never ends on a parse or client error: either every file
    was readable, the loop is ready for the next cycle and it has slept
    once per cycle, or it exited with status 1 at the first unreadable
    file, having slept once for each cycle before it and logged that error
    last. *)
Theorem X8_loop_stops_only_unreadable ws influx s (G : tagmap) :
  heap s !! GlobalTags influx = Some G →
  ∃ r s' tr, run ws influx s = (r, s') ∧
    trace s' = (trace s ++ tr)%list ∧
    is_Some (heap s' !! GlobalTags influx) ∧
    ((r = Ok tt ∧ Forall readable ws ∧
      sleeps tr = replicate (length ws) (Interval influx))
     ∨ (r = Exit 1 ∧
        ∃ ws1 w ws2 err, ws = (ws1 ++ w :: ws2)%list ∧ Forall readable ws1 ∧
          ReadFile w buddyPath = inr err ∧
          sleeps tr = replicate (length ws1) (Interval influx) ∧
          (length (writes tr) ≤ length ws1)%nat ∧
          last tr = Some (EvLogFatal err))).
Proof.
  intros HG.
  destruct (run_spec ws influx s G G HG (sameOffNodeZone_refl G))
    as (r & s' & tr & Hrun & Htr & (G2 & HG2 & _) & _ & Hstat).
  exists r, s', tr. split; [done|]. split; [done|]. split; [by eexists|].
  exact Hstat.
Qed.

Lemma X8_loop_stops_only_unreadable_witness :
  ∃ r s' tr,
    run [sample_world; refusing_world; world_of [short_line];
         unreadable_world; sample_world] sample_settings sample_state
    = (r, s') ∧
    trace s' = tr ∧ (r = Ok tt ∨ r = Exit 1).
Proof.
  destruct (X8_loop_stops_only_unreadable
              [sample_world; refusing_world; world_of [short_line];
               unreadable_world; sample_world]
              sample_settings sample_state sample_tags eq_refl)
    as (r & s' & tr & Hrun & Htr & _ & Hstat).
  exists r, s', tr. split; [exact Hrun|]. split; [exact Htr|].
  destruct Hstat as [(-> & _)|(-> & _)]; [by left | by right].
Defined.


